(** * ACCEPT driver: the command layer ([accept/commands.py]) and the
      ccv output scorer ([apps/ccv/eval.py])

    A shallow embedding of the two source files together with the
    properties their specification states about them.

    Python floats are IEEE 754 binary64 values; they are embedded as
    Rocq's primitive [float], whose operations are the same binary64
    operations.  Dictionaries are [gmap]s, exceptions are an error
    type threaded through [result]. *)

From Stdlib Require Import ZArith List Ascii String Floats Uint63 Lia.
From stdpp Require Import base option gmap strings list fin_maps.

Set Warnings "-inexact-float".

Local Open Scope Z_scope.

(** ** Exceptions and fallible results *)

Inductive exn : Type :=
| ZeroDivisionError
| IndexError
| KeyError (key : string)
| UserError (msg : string)
| OtherError (what : string).

Inductive result (A : Type) : Type :=
| Ok (a : A)
| Raise (e : exn).
Arguments Ok {A} a.
Arguments Raise {A} e.

Definition bind {A B} (r : result A) (k : A -> result B) : result B :=
  match r with
  | Ok a => k a
  | Raise e => Raise e
  end.

(** ** [apps/ccv/eval.py] *)

Module Ccv.

(** Python's [min(a, b)] keeps its first argument unless the second one
    compares strictly below it. *)
Definition py_min (a b : float) : float :=
  if (b <? a)%float then b else a.

(** [len] yields a [Py_ssize_t]. *)
Definition PY_SSIZE_T_MAX : Z := 2 ^ 63 - 1.

Definition len {A} (l : list A) : Z := Z.of_nat (length l).

(** The conversion of an integer operand of a float division. *)
Definition float_of_int (n : Z) : float := of_uint63 (Uint63.of_Z n).

(** [zip] stops at the shorter of its two arguments. *)
Fixpoint zip {A B} (xs : list A) (ys : list B) : list (A * B) :=
  match xs, ys with
  | x :: xs', y :: ys' => (x, y) :: zip xs' ys'
  | _, _ => []
  end.

(** The body of the [for] loop of [score], from accumulator [total]. *)
Fixpoint score_loop (total : float) (ps : list (float * float)) : float :=
  match ps with
  | [] => total
  | (a, b) :: ps' => score_loop (total + py_min (abs (a - b)) 1.0)%float ps'
  end.

(** Float division raises on a zero divisor. *)
Definition float_div (x y : float) : result float :=
  if (y =? 0)%float then Raise ZeroDivisionError else Ok (x / y)%float.

Definition score (orig relaxed : list float) : result float :=
  let total := score_loop 0.0%float (zip orig relaxed) in
  float_div total (float_of_int (len orig)).

Section Load.

(** [float(s)]: the parsed number, or the [ValueError] it raises. *)
Variable float_of_string : string -> result float.

(** The body of [for line in f], from the list [out] built so far. *)
Fixpoint load_loop (lines : list string) (out : list float)
  : result (list float) :=
  match lines with
  | [] => Ok out
  | line :: lines' =>
      let first_num := line in
      bind (float_of_string first_num)
           (fun x => load_loop lines' (out ++ [x]))
  end.

(** [my_output] is the file [my_output.txt] of the working directory as
    its lines, [None] when there is no such file, which [open] reports
    as an [IOError]. *)
Definition load (my_output : option (list string)) : result (list float) :=
  match my_output with
  | None => Raise (OtherError "IOError")
  | Some lines => load_loop lines []
  end.

End Load.

End Ccv.

(** ** Binary64 values *)

(** What rounding a positive integer to binary64 can give: a positive
    finite float, or the positive infinity. *)
Definition positive_float (x : spec_float) : Prop :=
  x = S754_infinity false \/ exists m e, x = S754_finite false m e.

(** ** The classification step of the evaluator ([accept/core.py]) *)

Module Core.

Inductive descriptor : Type := good | bad | error.

(** Modelled from the spec: the Classify step of the Evaluator, which is
    in [core.py] and not among the sources: "compare each approximate
    configuration's outputs against the baseline's outputs via the
    external scorer; if the aggregate deviation is within the configured
    tolerance, descriptor = good; if outside tolerance, bad", the
    boundary being settled as "deviation ≤ T ⇒ good". *)
Definition classify (scorer : list float -> list float -> result float)
    (tolerance : float) (baseline approximate : list float)
  : result descriptor :=
  bind (scorer baseline approximate)
       (fun deviation =>
          Ok (if (deviation <=? tolerance)%float then good else bad)).

End Core.

(** ** The memoizing dispatch client ([accept/cwmemo.py]) *)

Module CwMemo.

(** Argument values of the jobs the command layer submits. *)
Inductive pyval : Type :=
| VStr (s : string)
| VBool (b : bool).

#[global] Instance pyval_eq_dec : EqDecision pyval.
Proof. solve_decision. Defined.

(** Modelled from the spec: a Job, "a pairing of a callable identity and
    a tuple of arguments"; [cwmemo.py] is not among the sources. *)
Record job : Type := Job {
  callable : string;
  args : list pyval
}.

(** Modelled from the spec: the Fingerprint of a Job, "a deterministic
    digest" of the callable identity and the argument values, which any
    difference in either changes; the digest is idealised as the pair
    itself. *)
Definition fingerprint : Type := string * list pyval.

Definition fingerprint_of (j : job) : fingerprint := (callable j, args j).

(** The keyword options of a call, [keep=...] in [commands.py]: they
    are handed to the callable when the job runs and are no part of the
    Job. *)
Abbreviation options := (gmap string pyval).

Section Client.

(** The results of jobs, and the execution of the underlying callable
    of a job under the options of the call that started it. *)
Variable R : Type.
Variable run : job -> options -> R.

(** Modelled from the spec: the Memo Client of section 4.4 over the
    Memo Store of 4.2 and the Dispatch Backend of 4.3.  [store] is the
    persistent key→result mapping, [inflight] the submitted and not yet
    retrieved computations, [calls] the trace of executions of
    underlying callables, oldest first. *)
Record client : Type := Client {
  cluster : bool;
  force : bool;
  store : list (fingerprint * R);
  inflight : list (fingerprint * R);
  calls : list (job * options)
}.

Fixpoint assoc (k : fingerprint) (l : list (fingerprint * R)) : option R :=
  match l with
  | [] => None
  | (k', r) :: l' => if decide (k = k') then Some r else assoc k l'
  end.

Fixpoint remove_key (k : fingerprint) (l : list (fingerprint * R))
  : list (fingerprint * R) :=
  match l with
  | [] => []
  | (k', r) :: l' =>
      if decide (k = k') then remove_key k l' else (k', r) :: remove_key k l'
  end.

(** Modelled from the spec: [get_client] builds a client whose force
    mode is "set once for the life of a client". *)
Definition get_client (cluster force : bool) (db : list (fingerprint * R))
  : client :=
  Client cluster force db [] [].

(** Modelled from the spec: a lookup of the Memo Store, which under
    force mode behaves as absent. *)
Definition lookup_store (c : client) (k : fingerprint) : option R :=
  if force c then None else assoc k (store c).

(** Modelled from the spec: the backend's [submit]; a later submitter
    of an in-flight fingerprint attaches to the computation under way. *)
Definition dispatch (c : client) (j : job) (kw : options) : client :=
  let k := fingerprint_of j in
  match assoc k (inflight c) with
  | Some _ => c
  | None =>
      Client (cluster c) (force c) (store c)
             (inflight c ++ [(k, run j kw)]) (calls c ++ [(j, kw)])
  end.

(** Modelled from the spec: "if Memo Store has a record and force-mode
    is off, marks the Job as already-satisfied (no dispatch); otherwise
    forwards to the Dispatch Backend's submit". *)
Definition submit (c : client) (j : job) (kw : options) : client :=
  match lookup_store c (fingerprint_of j) with
  | Some _ => c
  | None => dispatch c j kw
  end.

(** Modelled from the spec: "if already-satisfied from the Memo Store,
    returns the cached result directly; otherwise calls the Dispatch
    Backend's get, then inserts the result into the Memo Store"; the
    backend's [get] without a prior [submit] is [submit] followed by
    [get]. *)
Definition get (c : client) (j : job) (kw : options) : R * client :=
  let k := fingerprint_of j in
  match lookup_store c k with
  | Some r => (r, c)
  | None =>
      let c1 := dispatch c j kw in
      let r := default (run j kw) (assoc k (inflight c1)) in
      (r, Client (cluster c1) (force c1)
                 ((k, r) :: remove_key k (store c1))
                 (remove_key k (inflight c1)) (calls c1))
  end.

End Client.

Arguments Client {R}.
Arguments cluster {R}.
Arguments force {R}.
Arguments store {R}.
Arguments inflight {R}.
Arguments calls {R}.
Arguments assoc {R}.
Arguments remove_key {R}.
Arguments get_client {R}.
Arguments lookup_store {R}.
Arguments dispatch {R}.
Arguments submit {R}.
Arguments get {R}.

End CwMemo.

(** ** [accept/commands.py] *)

Module Commands.

Import CwMemo.

Local Open Scope string_scope.

Definition RESULTS_JSON : string := "results.json".

(** *** Logging *)

Definition DEBUG : Z := 10.
Definition INFO : Z := 20.
Definition WARNING : Z := 30.
Definition ERROR : Z := 40.

(** The root logger: its threshold and the records it has emitted,
    oldest first. *)
Record logger : Type := Logger {
  level : Z;
  records : list (Z * string)
}.

(** A record below the logger's threshold is dropped. *)
Definition log_at (lvl : Z) (msg : string) (lg : logger) : logger :=
  if (level lg <=? lvl)%Z then Logger (level lg) (records lg ++ [(lvl, msg)])
  else lg.

(** *** The group callback [cli] and [get_eval] *)

Record GlobalConfig (R : Type) : Type := MkGlobalConfig {
  client : CwMemo.client R;
  reps : Z;
  test_reps : Z;
  keep_sandboxes : bool
}.
Arguments MkGlobalConfig {R}.
Arguments client {R}.
Arguments reps {R}.
Arguments test_reps {R}.
Arguments keep_sandboxes {R}.

(** The constructor arguments of [core.Evaluation]. *)
Record Evaluation (R : Type) : Type := MkEvaluation {
  ev_appdir : string;
  ev_client : CwMemo.client R;
  ev_reps : Z;
  ev_test_reps : Z
}.
Arguments MkEvaluation {R}.
Arguments ev_appdir {R}.
Arguments ev_client {R}.
Arguments ev_reps {R}.
Arguments ev_test_reps {R}.

(** [x or y] on an optional integer: [None] and [0] are falsy. *)
Definition py_or (x : option Z) (y : Z) : Z :=
  match x with
  | None => y
  | Some v => if (v =? 0)%Z then y else v
  end.

Section Cli.

Context {R : Type}.

(** [core.FIREHOSE], a logging level defined outside these sources. *)
Variable FIREHOSE : Z.

(** The memoization database [cwmemo.get_client] opens.  The stream
    handler that [cli] installs on the root logger is what the
    [records] of a [logger] stand for. *)
Variable db : list (fingerprint * R).

Definition cli (lg : logger) (verbose : Z) (cluster force : bool) (reps : Z)
    (test_reps : option Z) (keep_sandboxes : bool)
  : logger * GlobalConfig R :=
  let lg :=
    if (3 <=? verbose)%Z then Logger FIREHOSE (records lg)
    else if (2 <=? verbose)%Z then Logger DEBUG (records lg)
    else if (1 <=? verbose)%Z then Logger INFO (records lg)
    else lg in
  let client := get_client cluster force db in
  let test_reps := py_or test_reps reps in
  (lg, MkGlobalConfig client reps test_reps keep_sandboxes).

Definition get_eval (appdir : string) (config : GlobalConfig R)
  : Evaluation R :=
  MkEvaluation appdir (client config) (reps config) (test_reps config).

End Cli.

(** *** [exp] *)

(** [os.path.basename]: what follows the last slash. *)
Fixpoint basename_from (acc p : string) : string :=
  match p with
  | EmptyString => acc
  | String c p' =>
      if Ascii.eqb c "/"%char then basename_from EmptyString p'
      else basename_from (acc ++ String c EmptyString) p'
  end.

Definition basename (p : string) : string := basename_from EmptyString p.

(** A path component: a string with no slash in it. *)
Fixpoint slash_free (p : string) : bool :=
  match p with
  | EmptyString => true
  | String c p' => negb (Ascii.eqb c "/"%char) && slash_free p'
  end.

Section Exp.

Context {R : Type}.

(** The recorded metrics, as JSON values. *)
Variable V : Type.

(** [experiments.evaluate], which returns a result or raises, and the
    text [print] shows for a result. *)
Variable evaluate :
  Evaluation R -> bool -> bool -> list string -> result (gmap string V).
Variable repr : gmap string V -> string.

(** The report file (absent, or holding a report), the standard output
    and the log. *)
Record exp_world : Type := ExpWorld {
  results_file : option (gmap string (gmap string V));
  stdout : list string;
  exp_log : logger
}.

(** [del d[k]] *)
Definition py_del (k : string) (d : gmap string V)
  : result (gmap string V) :=
  match d !! k with
  | Some _ => Ok (delete k d)
  | None => Raise (KeyError k)
  end.

(** The body of [for appdir in appdirs]; [results_json] is the dictionary
    the loop updates in place and dumps at the end of each round. *)
Fixpoint exp_loop (ctx : GlobalConfig R) (verbose as_json include_time : bool)
    (only : list string) (appdirs : list string)
    (results_json : gmap string (gmap string V)) (w : exp_world)
  : exp_world * result unit :=
  match appdirs with
  | [] => (w, Ok tt)
  | appdir :: rest =>
      let appname := basename appdir in
      let lg := log_at INFO appname (exp_log w) in
      let exp := get_eval appdir ctx in
      match evaluate exp verbose as_json only with
      | Raise e => (ExpWorld (results_file w) (stdout w) lg, Raise e)
      | Ok res =>
          if as_json then
            match (if include_time then Ok res else py_del "time" res) with
            | Raise e => (ExpWorld (results_file w) (stdout w) lg, Raise e)
            | Ok res =>
                let results_json :=
                  match results_json !! appname with
                  | Some _ => results_json
                  | None => <[appname := ∅]> results_json
                  end in
                let results_json :=
                  <[appname := res ∪ default ∅ (results_json !! appname)]>
                    results_json in
                exp_loop ctx verbose as_json include_time only rest
                         results_json
                         (ExpWorld (Some results_json) (stdout w) lg)
            end
          else
            exp_loop ctx verbose as_json include_time only rest results_json
                     (ExpWorld (results_file w) (stdout w ++ [repr res]) lg)
      end
  end.

(** The report a world persists; no file is no entries. *)
Definition persisted (w : exp_world) : gmap string (gmap string V) :=
  default ∅ (results_file w).

(** A missing report file is an [IOError], read as the empty report. *)
Definition exp (ctx : GlobalConfig R) (appdirs : list string)
    (verbose as_json include_time : bool) (only : list string)
    (w : exp_world) : exp_world * result unit :=
  let results_json := if as_json then default ∅ (results_file w) else ∅ in
  exp_loop ctx verbose as_json include_time only appdirs results_json w.

(** The results that the evaluations of a run return. *)
Variable results :
  Evaluation R -> bool -> bool -> list string -> gmap string V.

(** Every evaluation of the run returns, and returns what [results]
    says. *)
Definition returns (ctx : GlobalConfig R) (verbose as_json : bool)
    (only : list string) (appdirs : list string) : Prop :=
  forall appdir,
    appdir ∈ appdirs ->
    evaluate (get_eval appdir ctx) verbose as_json only
    = Ok (results (get_eval appdir ctx) verbose as_json only).

(** What a round writes of a result: all of it under [--time], and
    otherwise all but its entry ["time"]. *)
Definition written (include_time : bool) (res : gmap string V)
  : gmap string V :=
  if include_time then res else delete "time" res.

(** The entries the rounds for the benchmark [name] write, a later round
    overriding an earlier one. *)
Fixpoint new_entries (ctx : GlobalConfig R) (verbose include_time : bool)
    (only : list string) (name : string) (appdirs : list string)
  : gmap string V :=
  match appdirs with
  | [] => ∅
  | appdir :: rest =>
      new_entries ctx verbose include_time only name rest
      ∪ (if decide (basename appdir = name)
         then written include_time
                (results (get_eval appdir ctx) verbose true only)
         else ∅)
  end.

(** Without [--time] every result must hold the entry that [del]
    removes, or the round raises. *)
Definition timed (ctx : GlobalConfig R) (verbose include_time : bool)
    (only : list string) (appdirs : list string) : Prop :=
  include_time = false ->
  forall appdir,
    appdir ∈ appdirs ->
    is_Some (results (get_eval appdir ctx) verbose true only !! "time").

End Exp.

Arguments ExpWorld {V}.
Arguments py_del {V}.
Arguments written {V}.
Arguments persisted {V}.
Arguments exp_loop {R V}.
Arguments exp {R V}.
Arguments returns {R V}.
Arguments new_entries {R V}.
Arguments timed {R V}.
Arguments results_file {V}.
Arguments stdout {V}.
Arguments exp_log {V}.

(** *** [log_and_output], [log] and [build] *)

Section LogAndOutput.

(** The files of a directory, by name. *)
Abbreviation dir := (gmap string string).

(** [core.build(require=False)] in the working directory: the files it
    leaves and the compiler output. *)
Variable core_build : dir -> dir * string.

(** The path [os.getcwd()] reports inside the sandbox. *)
Variable getcwd : string.

(** [cwd] holds the files of the sandbox working directory on entry. *)
Definition log_and_output (fn : string) (keep : bool) (cwd : dir)
    (lg : logger) : (string * string) * dir * logger :=
  let lg :=
    if keep then log_at INFO ("building in directory: " ++ getcwd) lg
    else lg in
  let cwd := match cwd !! fn with Some _ => delete fn cwd | None => cwd end in
  let '(cwd, output) := core_build cwd in
  let log :=
    match cwd !! fn with
    | Some contents => contents
    | None => ""
    end in
  ((log, output), cwd, lg).

End LogAndOutput.

Section LogBuild.

(** The result of a [log_and_output] job is its pair (log, output). *)
Variable run : job -> options -> string * string.

(** [core.normpath] and the [c++filt] subprocess. *)
Variable normpath : string -> string.
Variable cxxfilt : string -> string.

(** The job that the [submit] call and the [get] call of [log] and of
    [build] name: the callable [log_and_output] and the one positional
    argument [appdir]. *)
Definition build_job (appdir : string) : job :=
  Job "log_and_output" [VStr appdir].

(** The keyword option of the [submit] call; the [get] call has none. *)
Definition keep_option (keep : bool) : options := {["keep" := VBool keep]}.

(** Both commands return what they echo and the client they leave. *)
Definition log (ctx : GlobalConfig (string * string)) (appdir : string)
  : string * CwMemo.client (string * string) :=
  let appdir := normpath appdir in
  let c := submit run (client ctx) (build_job appdir)
                  (keep_option (keep_sandboxes ctx)) in
  let '((logtxt, _), c) := get run c (build_job appdir) ∅ in
  (cxxfilt logtxt, c).


End LogBuild.

(** *** [approx] *)

(** [l[i]]: a negative index counts from the end, an index out of range
    raises. *)
Definition py_index {A} (l : list A) (i : Z) : result A :=
  let n := Z.of_nat (length l) in
  let i := if (i <? 0)%Z then (i + n)%Z else i in
  if ((0 <=? i)%Z && (i <? n)%Z)%bool then
    match nth_error l (Z.to_nat i) with
    | Some x => Ok x
    | None => Raise IndexError
    end
  else Raise IndexError.

(** [print(line)] on the standard output, a list of lines. *)
Definition print (line : string) (out : list string) : list string :=
  out ++ [line].

Section Approx.

Variables Config Output : Type.

(** [experiments.dump_config], and the formats ['{}'] and ['{:.2f}']. *)
Variable dump_config : Config -> string.
Variable format_output : Output -> string.
Variable format_2f : float -> string.

(** What [approx] reads of a result of [core.Evaluation]; a duration
    [None] marks a replicate that produced no timing. *)
Record EvaluationResult : Type := MkResult {
  config : Config;
  outputs : list Output;
  durations : list (option float);
  desc : string
}.

Fixpoint print_outputs (os : list Output) (out : list string) : list string :=
  match os with
  | [] => out
  | output :: os' => print_outputs os' (print ("  " ++ format_output output) out)
  end.

Fixpoint print_durations (ts : list (option float)) (out : list string)
  : list string :=
  match ts with
  | [] => out
  | t :: ts' =>
      let out :=
        match t with
        | None => print "  (error)" out
        | Some t => print ("  " ++ format_2f t) out
        end in
      print_durations ts' out
  end.

(** The body of [for result in results]. *)
Definition print_result (result : EvaluationResult) (out : list string)
  : list string :=
  let out := print (dump_config (config result)) out in
  let out := print "output:" out in
  let out := print_outputs (outputs result) out in
  let out := print "time:" out in
  let out := print_durations (durations result) out in
  let out := if String.eqb (desc result) "good" then out
             else print (desc result) out in
  print "" out.

Fixpoint print_results (results : list EvaluationResult) (out : list string)
  : list string :=
  match results with
  | [] => out
  | result :: rest => print_results rest (print_result result out)
  end.

(** The line of one replicate's duration, and the lines of one result,
    as the command table describes them. *)
Definition render_duration (t : option float) : string :=
  match t with
  | None => "  (error)"
  | Some t => "  " ++ format_2f t
  end.

Definition render_result (result : EvaluationResult) : list string :=
  [dump_config (config result); "output:"]
  ++ map (fun output => "  " ++ format_output output) (outputs result)
  ++ ["time:"]
  ++ map render_duration (durations result)
  ++ (if String.eqb (desc result) "good" then [] else [desc result])
  ++ [""].

(** [results] is [ev.results] after [ev.run()]; [approx] yields the
    standard output it leaves. *)
Definition approx (num : Z) (results : list EvaluationResult)
    (out : list string) : list string * result unit :=
  let selected :=
    if negb (num =? -1)%Z then bind (py_index results num) (fun r => Ok [r])
    else Ok results in
  match selected with
  | Raise e => (out, Raise e)
  | Ok results => (print_results results out, Ok tt)
  end.

End Approx.

Arguments MkResult {Config Output}.
Arguments config {Config Output}.
Arguments outputs {Config Output}.
Arguments durations {Config Output}.
Arguments desc {Config Output}.

(** *** [precise] *)

Section Precise.

Variable Pout : Type.

(** [str] of the baseline output, and the format ['{:.2f}']. *)
Variable str_pout : Pout -> string.
Variable format_2f : float -> string.

Fixpoint print_times (times : list float) (out : list string) : list string :=
  match times with
  | [] => out
  | t :: times' => print_times times' (print ("  " ++ format_2f t) out)
  end.

(** [pout] is [ev.pout] and [times] is [list(ev.precise_times())] after
    [ev.setup()]; [print] separates its two arguments by a space. *)
Definition precise (pout : Pout) (times : list float) (out : list string)
  : list string :=
  let out := print ("output:" ++ " " ++ str_pout pout) out in
  let out := print "time:" out in
  print_times times out.

End Precise.

(** *** [main] *)

(** How an execution of the entry point ends. *)
Inductive exit : Type :=
| Returned
| SysExit (code : Z)
| Propagated (e : exn).

Section Main.

(** [traceback.format_exc()] for the exception being handled, and the
    rendering [exc.log()] of a [core.UserError]. *)
Variable format_exc : exn -> string.
Variable user_error_log : string -> string.

(** [body] is how the call [cli()] ended, [lg] the logger it left. *)
Definition main (body : result unit) (lg : logger) : logger * exit :=
  match body with
  | Ok _ => (lg, Returned)
  | Raise (UserError msg) =>
      let lg := log_at DEBUG (format_exc (UserError msg)) lg in
      let lg := log_at ERROR (user_error_log msg) lg in
      (lg, SysExit 1)
  | Raise e => (lg, Propagated e)
  end.

End Main.

End Commands.

(** * Properties *)

(** ** Rounding in binary64 *)

Lemma shr_1_positive (mrs : shr_record) (q : positive) :
  shr_m mrs = Zpos q -> 1 < Zpos (digits2_pos q) ->
  exists q', shr_m (shr_1 mrs) = Zpos q'
             /\ Zpos (digits2_pos q') = Zpos (digits2_pos q) - 1.
Proof.
  destruct mrs as [m r s]; simpl; intros -> Hd.
  destruct q as [q|q|]; simpl in *; try lia; eexists; split; eauto; lia.
Qed.

Lemma iter_shr_1_positive (k : positive) :
  forall (mrs : shr_record) (q : positive),
    shr_m mrs = Zpos q -> Zpos k < Zpos (digits2_pos q) ->
    exists q', shr_m (SpecFloat.iter_pos shr_1 k mrs) = Zpos q'
               /\ Zpos (digits2_pos q') = Zpos (digits2_pos q) - Zpos k.
Proof.
  induction k as [k IH|k IH|]; intros mrs q Hm Hk; simpl.
  - destruct (shr_1_positive mrs q Hm) as (q1 & H1 & D1); [lia|].
    destruct (IH _ _ H1) as (q2 & H2 & D2); [lia|].
    destruct (IH _ _ H2) as (q3 & H3 & D3); [lia|].
    exists q3; split; [exact H3|lia].
  - destruct (IH _ _ Hm) as (q1 & H1 & D1); [lia|].
    destruct (IH _ _ H1) as (q2 & H2 & D2); [lia|].
    exists q2; split; [exact H2|lia].
  - apply shr_1_positive; assumption.
Qed.

Lemma shr_fexp_positive (q : positive) (e : Z) (l : location)
    (mrs : shr_record) (e' : Z) :
  shr_fexp prec emax (Zpos q) e l = (mrs, e') ->
  emin < e + Zpos (digits2_pos q) ->
  exists q', shr_m mrs = Zpos q'
             /\ e' + Zpos (digits2_pos q') = e + Zpos (digits2_pos q).
Proof.
  unfold shr_fexp, shr, Zdigits2. intros H He.
  assert (Hm : shr_m (shr_record_of_loc (Zpos q) l) = Zpos q)
    by (destruct l as [|[]]; reflexivity).
  destruct (fexp prec emax (Zpos (digits2_pos q) + e) - e) as [|n|n] eqn:Hn;
    inversion H; subst; clear H.
  - exists q; split; [exact Hm|reflexivity].
  - destruct (iter_shr_1_positive n _ q Hm) as (q' & H1 & D1).
    + unfold fexp, SpecFloat.emin, prec, emax in *. lia.
    + exists q'; split; [exact H1|lia].
  - exists q; split; [exact Hm|reflexivity].
Qed.

Lemma digits2_pos_succ (q : positive) :
  Zpos (digits2_pos q) <= Zpos (digits2_pos (Pos.succ q)).
Proof.
  induction q as [q IH|q IH|]; simpl; lia.
Qed.

Lemma round_nearest_even_positive (q : positive) (l : location) :
  exists q', round_nearest_even (Zpos q) l = Zpos q'
             /\ Zpos (digits2_pos q) <= Zpos (digits2_pos q').
Proof.
  assert (Hs : Zpos q + 1 = Zpos (Pos.succ q)) by lia.
  pose proof (digits2_pos_succ q) as Hd.
  destruct l as [|[]]; unfold round_nearest_even;
    try destruct (Z.even (Zpos q)); rewrite ?Hs; eexists; split; eauto; lia.
Qed.

Lemma binary_round_aux_positive (q : positive) (e : Z) (l : location) :
  emin < e + Zpos (digits2_pos q) ->
  positive_float (binary_round_aux prec emax false (Zpos q) e l).
Proof.
  intros He. unfold binary_round_aux.
  destruct (shr_fexp prec emax (Zpos q) e l) as [mrs1 e1] eqn:H1.
  destruct (shr_fexp_positive _ _ _ _ _ H1 He) as (q1 & Hq1 & D1).
  rewrite Hq1.
  destruct (round_nearest_even_positive q1 (loc_of_shr_record mrs1))
    as (q2 & Hq2 & D2).
  rewrite Hq2.
  destruct (shr_fexp prec emax (Zpos q2) e1 loc_Exact) as [mrs2 e2] eqn:H2.
  destruct (shr_fexp_positive _ _ _ _ _ H2) as (q3 & Hq3 & _); [lia|].
  rewrite Hq3.
  destruct (e2 <=? emax - prec); [right; eauto | left; reflexivity].
Qed.

Lemma binary_normalize_positive (p : positive) :
  positive_float (binary_normalize prec emax (Zpos p) 0 false).
Proof.
  unfold binary_normalize, binary_round.
  destruct (shl_align p 0 (fexp prec emax (Zpos (digits2_pos p) + 0)))
    as [mz ez] eqn:Hs.
  apply binary_round_aux_positive.
  unfold shl_align in Hs.
  destruct (fexp prec emax (Zpos (digits2_pos p) + 0) - 0) as [|d|d] eqn:Hd;
    inversion Hs; subst; clear Hs;
    unfold fexp, SpecFloat.emin, prec, emax in *; lia.
Qed.

Lemma finite_cases (x : float) :
  is_finite x = true ->
  (exists s, Prim2SF x = S754_zero s)
  \/ (exists s m e, Prim2SF x = S754_finite s m e).
Proof.
  unfold is_finite, is_nan, is_infinity.
  rewrite !FloatAxioms.eqb_spec, FloatAxioms.abs_spec.
  change (Prim2SF infinity) with (S754_infinity false).
  destruct (Prim2SF x) as [s|s| |s m e]; eauto.
  - destruct s; discriminate.
  - discriminate.
Qed.

Lemma sub_self (x : float) :
  is_finite x = true -> (x - x)%float = 0%float.
Proof.
  intros Hx. apply Prim2SF_inj. rewrite FloatAxioms.sub_spec.
  change (Prim2SF 0) with (S754_zero false).
  destruct (finite_cases x Hx) as [[s ->]|(s & m & e & ->)].
  - destruct s; reflexivity.
  - unfold SF64sub, SFsub, shl_align.
    rewrite Z.sub_diag. reflexivity.
Qed.

Lemma score_loop_self (xs : list float) :
  Forall (fun x => is_finite x = true) xs ->
  Ccv.score_loop 0 (Ccv.zip xs xs) = 0%float.
Proof.
  induction 1 as [|x xs Hx _ IH]; [reflexivity|].
  cbn [Ccv.zip Ccv.score_loop]. rewrite (sub_self x Hx). exact IH.
Qed.

Lemma float_of_int_positive (n : Z) :
  0 < n <= Ccv.PY_SSIZE_T_MAX ->
  positive_float (Prim2SF (Ccv.float_of_int n)).
Proof.
  intros Hn. unfold Ccv.float_of_int.
  rewrite FloatAxioms.of_uint63_spec, Uint63.of_Z_spec.
  rewrite Z.mod_small
    by (unfold Ccv.PY_SSIZE_T_MAX in Hn; change wB with (2 ^ 63); lia).
  destruct n as [|p|p]; try lia.
  apply binary_normalize_positive.
Qed.

Lemma float_div_positive (x y : float) :
  positive_float (Prim2SF y) -> Ccv.float_div x y = Ok (x / y)%float.
Proof.
  intros Hy. unfold Ccv.float_div.
  rewrite FloatAxioms.eqb_spec.
  change (Prim2SF 0) with (S754_zero false).
  destruct Hy as [->|(m & e & ->)]; reflexivity.
Qed.

Lemma float_div_zero_positive (y : float) :
  positive_float (Prim2SF y) -> Ccv.float_div 0 y = Ok 0%float.
Proof.
  intros Hy. rewrite (float_div_positive 0 y Hy). f_equal.
  apply Prim2SF_inj. rewrite FloatAxioms.div_spec.
  change (Prim2SF 0) with (S754_zero false).
  destruct Hy as [->|(m & e & ->)]; reflexivity.
Qed.

Lemma len_positive {A} (xs : list A) : xs <> [] -> 0 < Ccv.len xs.
Proof.
  unfold Ccv.len. destruct xs; [congruence|]. cbn [length]. lia.
Qed.

(** On a non-empty original list the scorer returns a float. *)
Lemma score_nonempty_returns (orig relaxed : list float) :
  orig <> [] ->
  Ccv.len orig <= Ccv.PY_SSIZE_T_MAX ->
  Ccv.score orig relaxed
  = Ok (Ccv.score_loop 0 (Ccv.zip orig relaxed)
        / Ccv.float_of_int (Ccv.len orig))%float.
Proof.
  intros Hne Hlen. unfold Ccv.score.
  apply float_div_positive, float_of_int_positive.
  split; [apply len_positive; exact Hne|exact Hlen].
Qed.

(** ** The ccv scorer *)

Section CcvScenario.

Let baseline : list float := [1.0; 1.0; 1.0]%float.
Let close_outputs : list float := [1.02; 0.98; 1.01]%float.
Let far_outputs : list float := [1.2; 0.8; 1.1]%float.
Let tolerance : float := 0.05%float.

(** C1: with baseline outputs [1.0, 1.0, 1.0] and tolerance 0.05, the
    outputs [1.02, 0.98, 1.01] score at most 0.05 and are classified
    good, and the outputs [1.2, 0.8, 1.1] score more than 0.05 and are
    classified bad. *)
Theorem ccv_scenario_classification :
  (exists s, Ccv.score baseline close_outputs = Ok s
             /\ (s <=? tolerance)%float = true)
  /\ Core.classify Ccv.score tolerance baseline close_outputs = Ok Core.good
  /\ (exists s, Ccv.score baseline far_outputs = Ok s
                /\ (tolerance <? s)%float = true)
  /\ Core.classify Ccv.score tolerance baseline far_outputs = Ok Core.bad.
Proof.
  split; [|split; [|split]].
  - eexists; split; [reflexivity|]. vm_compute; reflexivity.
  - vm_compute; reflexivity.
  - eexists; split; [reflexivity|]. vm_compute; reflexivity.
  - vm_compute; reflexivity.
Qed.

End CcvScenario.

(** C10: on an empty original list the scorer raises a division by zero,
    whatever the relaxed list is. *)
Theorem score_empty_orig_raises (relaxed : list float) :
  Ccv.score [] relaxed = Raise ZeroDivisionError.
Proof.
  unfold Ccv.score. destruct relaxed; reflexivity.
Qed.

(** C9, amended: for every non-empty list xs of finite floats (no
    infinity, no NaN) whose length fits [Py_ssize_t], the scorer applied
    to xs and xs returns exactly 0.0. *)
Theorem score_self_zero (xs : list float) :
  xs <> [] ->
  Ccv.len xs <= Ccv.PY_SSIZE_T_MAX ->
  Forall (fun x => is_finite x = true) xs ->
  Ccv.score xs xs = Ok 0%float.
Proof.
  intros Hne Hlen Hfin. unfold Ccv.score.
  rewrite (score_loop_self xs Hfin).
  apply float_div_zero_positive, float_of_int_positive.
  split; [apply len_positive; exact Hne|exact Hlen].
Qed.

Lemma score_self_zero_witness :
  Ccv.score [1.5; 0.25]%float [1.5; 0.25]%float = Ok 0%float.
Proof.
  apply score_self_zero.
  - discriminate.
  - vm_compute. discriminate.
  - repeat constructor.
Defined.

(** C9 as stated fails on a list holding an infinity: inf - inf is NaN,
    which [min] keeps and the mean propagates. *)
Lemma score_self_infinity :
  Ccv.score [infinity] [infinity] = Ok nan
  /\ Ccv.score [infinity] [infinity] <> Ok 0%float.
Proof.
  split; [reflexivity|].
  intros H.
  apply (f_equal (fun r => match r with Ok s => is_nan s | Raise _ => false end))
    in H.
  vm_compute in H. discriminate.
Qed.

(** ** The command layer *)

Module CommandFacts.

Import CwMemo Commands.

Local Open Scope string_scope.

(** *** [cli] *)

Lemma py_or_unspecified (reps : Z) : py_or None reps = reps.
Proof. reflexivity. Qed.

Lemma py_or_nonzero (v reps : Z) : v <> 0%Z -> py_or (Some v) reps = v.
Proof.
  intros Hv. unfold py_or. destruct (Z.eqb_spec v 0); [contradiction|reflexivity].
Qed.

Lemma cli_test_reps {R} (FIREHOSE : Z) (db : list (fingerprint * R))
    (lg : logger) (verbose : Z) (cluster force : bool) (r : Z)
    (tr : option Z) (keep : bool) (appdir : string) :
  ev_test_reps
    (get_eval appdir (snd (cli FIREHOSE db lg verbose cluster force r tr keep)))
  = py_or tr r.
Proof. reflexivity. Qed.

(** C2 at a test replication factor given as 0: the configuration handed
    to the evaluator carries the search replication factor, here 3, and
    not the 0 that was specified. *)
Theorem cli_test_reps_zero_falls_back {R} (FIREHOSE : Z)
    (db : list (fingerprint * R)) (lg : logger) (verbose : Z)
    (cluster force keep : bool) (appdir : string) :
  let config := snd (cli FIREHOSE db lg verbose cluster force 3 (Some 0%Z) keep) in
  test_reps config = 3%Z
  /\ ev_test_reps (get_eval appdir config) = 3%Z
  /\ ev_test_reps (get_eval appdir config) <> 0%Z.
Proof.
  cbn. repeat split. discriminate.
Qed.

(** *** [main] *)

Lemma log_at_records (lvl : Z) (msg : string) (lg : logger) :
  records (log_at lvl msg lg)
  = (records lg ++ (if (level lg <=? lvl)%Z then [(lvl, msg)] else []))%list.
Proof.
  unfold log_at. destruct (level lg <=? lvl)%Z; cbn; [reflexivity|].
  symmetry; apply app_nil_r.
Qed.

Lemma log_at_level (lvl : Z) (msg : string) (lg : logger) :
  level (log_at lvl msg lg) = level lg.
Proof.
  unfold log_at. destruct (level lg <=? lvl)%Z; reflexivity.
Qed.

(** C5: when the command body raises a [UserError], [main] exits with
    code 1 after logging the stack trace through [logging.debug], which
    a logger emits only at a threshold of DEBUG or below, and the
    rendered message through [logging.error]; any other exception
    leaves [main] unhandled, and nothing is logged for it. *)
Theorem main_user_error_exit (format_exc : exn -> string)
    (user_error_log : string -> string) (lg : logger) :
  (forall msg,
      exists lg',
        main format_exc user_error_log (Raise (UserError msg)) lg
        = (lg', SysExit 1)
        /\ level lg' = level lg
        /\ records lg'
           = (records lg
              ++ (if (level lg <=? DEBUG)%Z
                  then [(DEBUG, format_exc (UserError msg))] else [])
              ++ (if (level lg <=? ERROR)%Z
                  then [(ERROR, user_error_log msg)] else []))%list)
  /\ (forall e,
        (forall msg, e <> UserError msg) ->
        main format_exc user_error_log (Raise e) lg = (lg, Propagated e)).
Proof.
  split.
  - intros msg. eexists; split; [reflexivity|]. split.
    + rewrite !log_at_level. reflexivity.
    + rewrite log_at_records, log_at_level, log_at_records.
      rewrite <- app_assoc. reflexivity.
  - intros e He. destruct e; try reflexivity.
    exfalso. eapply He. reflexivity.
Qed.

Lemma main_user_error_exit_witness :
  main (fun _ => "Traceback") (fun m => "error: " ++ m)
       (Raise (KeyError "time")) (Logger WARNING [])
  = (Logger WARNING [], Propagated (KeyError "time")).
Proof.
  apply (main_user_error_exit (fun _ => "Traceback") (fun m => "error: " ++ m)
           (Logger WARNING [])).
  intros msg. discriminate.
Defined.

(** *** [log_and_output] *)

(** C7: [log_and_output] runs the build in the working directory with
    the log file removed and every other file as it was, and returns the
    contents of the log file the build left, or the empty string when it
    left none, together with the build output. *)
Theorem log_and_output_fresh_log
    (core_build : gmap string string -> gmap string string * string)
    (getcwd fn : string) (keep : bool) (cwd : gmap string string)
    (lg : logger) :
  exists before after output lg',
    before !! fn = None
    /\ (forall f, f <> fn -> before !! f = cwd !! f)
    /\ core_build before = (after, output)
    /\ log_and_output core_build getcwd fn keep cwd lg
       = ((default "" (after !! fn), output), after, lg').
Proof.
  exists (delete fn cwd).
  destruct (core_build (delete fn cwd)) as [after output] eqn:Hb.
  exists after, output.
  eexists. split; [apply lookup_delete_eq|].
  split; [intros f Hf; apply lookup_delete_ne; congruence|].
  split; [reflexivity|].
  unfold log_and_output.
  assert (Hd : match cwd !! fn with
               | Some _ => delete fn cwd
               | None => cwd
               end = delete fn cwd).
  { destruct (cwd !! fn) eqn:Hfn; [reflexivity|].
    symmetry. apply delete_id. exact Hfn. }
  rewrite Hd, Hb.
  destruct (after !! fn); reflexivity.
Qed.

(** *** [log] and [build] *)




(** On a hit of the store neither call runs the callable. *)
Lemma submit_get_hit {R} (run : job -> options -> R) (c : CwMemo.client R)
    (j : job) (kw kw' : options) (r : R) :
  lookup_store c (fingerprint_of j) = Some r ->
  get run (submit run c j kw) j kw' = (r, c).
Proof.
  intros Hs. unfold submit. rewrite Hs. unfold get. rewrite Hs. reflexivity.
Qed.


(** *** [approx] *)

Section ApproxFacts.

Context {Config Output : Type}.
Variable dump_config : Config -> string.
Variable format_output : Output -> string.
Variable format_2f : float -> string.

Local Abbreviation print_outputs := (print_outputs Output format_output).
Local Abbreviation print_durations := (print_durations format_2f).
Local Abbreviation print_result :=
  (print_result Config Output dump_config format_output format_2f).
Local Abbreviation print_results :=
  (print_results Config Output dump_config format_output format_2f).
Local Abbreviation render_result :=
  (render_result Config Output dump_config format_output format_2f).
Local Abbreviation render_duration := (render_duration format_2f).
Local Abbreviation approx :=
  (approx Config Output dump_config format_output format_2f).

Lemma print_outputs_app (os : list Output) :
  forall out : list string,
    print_outputs os out
    = (out ++ map (fun output => ("  " ++ format_output output)%string) os)%list.
Proof.
  induction os as [|o os IH]; intros out; cbn [Commands.print_outputs map].
  - symmetry; apply app_nil_r.
  - rewrite IH. unfold print. rewrite <- app_assoc. reflexivity.
Qed.

Lemma print_durations_app (ts : list (option float)) :
  forall out : list string,
    print_durations ts out = (out ++ map render_duration ts)%list.
Proof.
  induction ts as [|t ts IH]; intros out; cbn [Commands.print_durations map].
  - symmetry; apply app_nil_r.
  - rewrite IH. destruct t; unfold print; rewrite <- app_assoc; reflexivity.
Qed.

Lemma print_result_app (r : EvaluationResult Config Output)
    (out : list string) :
  print_result r out = (out ++ render_result r)%list.
Proof.
  unfold Commands.print_result, Commands.render_result.
  rewrite print_durations_app, print_outputs_app. unfold print.
  destruct (String.eqb (desc r) "good");
    repeat rewrite <- app_assoc; reflexivity.
Qed.

Lemma print_results_app (rs : list (EvaluationResult Config Output)) :
  forall out : list string,
    print_results rs out = (out ++ concat (map render_result rs))%list.
Proof.
  induction rs as [|r rs IH]; intros out;
    cbn [Commands.print_results map concat].
  - symmetry; apply app_nil_r.
  - rewrite IH, print_result_app, <- app_assoc. reflexivity.
Qed.

Lemma py_index_in_range {A} (l : list A) (i : Z) :
  (- Z.of_nat (length l) <= i < Z.of_nat (length l))%Z ->
  exists x, nth_error l (Z.to_nat (i mod Z.of_nat (length l))) = Some x
            /\ py_index l i = Ok x.
Proof.
  intros Hi. unfold py_index.
  set (n := Z.of_nat (length l)) in *.
  assert (Hm : (if (i <? 0)%Z then (i + n)%Z else i) = (i mod n)%Z).
  { destruct (Z.ltb_spec i 0).
    - rewrite <- (Z.mod_small (i + n) n) by lia.
      rewrite <- (Z.mod_add i 1 n) by lia. f_equal; lia.
    - symmetry; apply Z.mod_small; lia. }
  rewrite Hm.
  assert (Hr : (0 <= i mod n < n)%Z) by (apply Z.mod_pos_bound; lia).
  destruct (Z.leb_spec 0 (i mod n)); [|lia].
  destruct (Z.ltb_spec (i mod n) n); [|lia]. cbn [andb].
  destruct (nth_error l (Z.to_nat (i mod n))) as [x|] eqn:Hx.
  - exists x; split; reflexivity.
  - apply nth_error_None in Hx. unfold n in *. lia.
Qed.

Lemma py_index_out_of_range {A} (l : list A) (i : Z) :
  ~ (- Z.of_nat (length l) <= i < Z.of_nat (length l))%Z ->
  py_index l i = Raise IndexError.
Proof.
  intros Hi. unfold py_index.
  set (n := Z.of_nat (length l)) in *.
  destruct (Z.ltb_spec i 0).
  - destruct (Z.leb_spec 0 (i + n)); [|reflexivity].
    destruct (Z.ltb_spec (i + n) n); [lia|reflexivity].
  - destruct (Z.leb_spec 0 i); [|lia].
    destruct (Z.ltb_spec i n); [lia|reflexivity].
Qed.

(** C6, amended: with the argument -1, [approx] prints every result in
    order; with another argument that is a valid index of the results,
    from the front or, when negative, from the end, it prints exactly
    the result at that index; with an argument out of range it raises
    [IndexError] and prints nothing. *)
Theorem approx_selection (results : list (EvaluationResult Config Output))
    (out : list string) (num : Z) :
  let n := Z.of_nat (length results) in
  approx (-1) results out
  = ((out ++ concat (map render_result results))%list, Ok tt)
  /\ (num <> (-1)%Z -> (- n <= num < n)%Z ->
      exists r, nth_error results (Z.to_nat (num mod n)) = Some r
                /\ approx num results out
                   = ((out ++ render_result r)%list, Ok tt))
  /\ (num <> (-1)%Z -> ~ (- n <= num < n)%Z ->
      approx num results out = (out, Raise IndexError)).
Proof.
  cbn zeta. split; [|split].
  - unfold Commands.approx. cbn. rewrite print_results_app. reflexivity.
  - intros Hnum Hr. unfold Commands.approx.
    destruct (Z.eqb_spec num (-1)); [contradiction|]. cbn [negb].
    destruct (py_index_in_range results num Hr) as (r & Hn & ->).
    exists r; split; [exact Hn|]. cbn [bind Commands.print_results].
    rewrite print_result_app. reflexivity.
  - intros Hnum Hr. unfold Commands.approx.
    destruct (Z.eqb_spec num (-1)); [contradiction|]. cbn [negb].
    rewrite (py_index_out_of_range results num Hr). reflexivity.
Qed.

(** C8, amended: for a result it prints, [approx] shows the
    configuration, the outputs, then one line per replicate, "(error)"
    for a duration with no value and the seconds to two decimals for a
    numeric one, and after the timings the status descriptor unless that
    descriptor is "good", in which case no descriptor line is printed. *)
Theorem print_result_lines (r : EvaluationResult Config Output)
    (out : list string) :
  print_result r out
  = (out
     ++ [dump_config (config r); "output:"]
     ++ map (fun output => ("  " ++ format_output output)%string) (outputs r)
     ++ ["time:"]
     ++ map (fun t => match t with
                      | None => "  (error)"
                      | Some t => ("  " ++ format_2f t)%string
                      end) (durations r)
     ++ (if String.eqb (desc r) "good" then [] else [desc r])
     ++ [""])%list.
Proof.
  rewrite print_result_app. reflexivity.
Qed.

End ApproxFacts.

Lemma approx_selection_witness :
  let r0 := MkResult tt ["0.5"] [Some 1.5%float] "good" in
  let r1 := MkResult tt ["0.7"] [None] "error" in
  (exists r,
      nth_error [r0; r1] 0 = Some r
      /\ approx unit string (fun _ => "cfg") (fun o => o) (fun _ => "1.50")
                (-2) [r0; r1] []
         = (render_result unit string (fun _ => "cfg") (fun o => o)
              (fun _ => "1.50") r, Ok tt))
  /\ approx unit string (fun _ => "cfg") (fun o => o) (fun _ => "1.50")
            2 [r0; r1] []
     = ([], Raise IndexError).
Proof.
  cbn zeta. split.
  - destruct (approx_selection (fun _ : unit => "cfg") (fun o : string => o)
                (fun _ => "1.50")
                [MkResult tt ["0.5"] [Some 1.5%float] "good";
                 MkResult tt ["0.7"] [None] "error"] [] (-2)) as (_ & H & _).
    apply H; [discriminate | cbn; lia].
  - destruct (approx_selection (fun _ : unit => "cfg") (fun o : string => o)
                (fun _ => "1.50")
                [MkResult tt ["0.5"] [Some 1.5%float] "good";
                 MkResult tt ["0.7"] [None] "error"] [] 2) as (_ & _ & H).
    apply H; [discriminate | cbn; lia].
Defined.

(** C6 as stated fails on an index out of range: nothing is printed and
    [IndexError] is raised, on an empty list of results as on a list of
    two. *)
Lemma approx_index_out_of_range :
  approx unit string (fun _ => "cfg") (fun o => o) (fun _ => "1.50") 0 [] []
  = ([], Raise IndexError)
  /\ approx unit string (fun _ => "cfg") (fun o => o) (fun _ => "1.50") 2
            [MkResult tt ["0.5"] [Some 1.5%float] "good";
             MkResult tt ["0.7"] [None] "error"] []
     = ([], Raise IndexError).
Proof. split; reflexivity. Qed.

(** C8 as stated fails on a result whose descriptor is "good": its
    timings are printed and the descriptor is not. *)
Lemma print_result_good_hides_descriptor :
  let r := MkResult tt ["0.5"] [Some 1.5%float; None] "good" in
  let printed :=
    print_result unit string (fun _ => "cfg") (fun o => o) (fun _ => "1.50")
                 r [] in
  printed = ["cfg"; "output:"; "  0.5"; "time:"; "  1.50"; "  (error)"; ""]
  /\ ~ In (desc r) printed.
Proof.
  cbn zeta. split; [reflexivity|].
  cbn. intros H. repeat (destruct H as [H|H]; [discriminate H|]). exact H.
Qed.

(** *** [exp] *)

Section ExpFacts.

Context {R V : Type}.
Variable evaluate :
  Evaluation R -> bool -> bool -> list string -> result (gmap string V).
Variable results :
  Evaluation R -> bool -> bool -> list string -> gmap string V.
Variable repr : gmap string V -> string.
Variable ctx : GlobalConfig R.
Variables verbose include_time : bool.
Variable only : list string.

Local Abbreviation res_of appdir :=
  (results (get_eval appdir ctx) verbose true only).
Local Abbreviation fresh name appdirs :=
  (new_entries results ctx verbose include_time only name appdirs).
Local Abbreviation timed appdirs :=
  (timed results ctx verbose include_time only appdirs).
Local Abbreviation returns appdirs :=
  (returns evaluate results ctx verbose true only appdirs).

Lemma written_ok (appdir : string) :
  (include_time = false -> is_Some (res_of appdir !! "time")) ->
  (if include_time then Ok (res_of appdir) else py_del "time" (res_of appdir))
  = Ok (written include_time (res_of appdir)).
Proof.
  intros Ht. unfold written, py_del. destruct include_time; [reflexivity|].
  destruct (Ht eq_refl) as [v ->]. reflexivity.
Qed.

Lemma round_lookup (rj : gmap string (gmap string V)) (appname name : string)
    (res : gmap string V) :
  let rj1 := match rj !! appname with
             | Some _ => rj
             | None => <[appname := ∅]> rj
             end in
  <[appname := res ∪ default ∅ (rj1 !! appname)]> rj1 !! name
  = if decide (appname = name)
    then Some (res ∪ default ∅ (rj !! appname))
    else rj !! name.
Proof.
  cbn zeta. destruct (decide (appname = name)) as [->|Hne].
  - rewrite lookup_insert_eq. f_equal. f_equal.
    destruct (rj !! name) eqn:Hl; [rewrite Hl; reflexivity|].
    rewrite lookup_insert_eq. reflexivity.
  - rewrite lookup_insert_ne by exact Hne.
    destruct (rj !! appname); [reflexivity|].
    apply lookup_insert_ne. exact Hne.
Qed.

Lemma new_entries_not_evaluated (name : string) (appdirs : list string) :
  name ∉ basename <$> appdirs -> fresh name appdirs = ∅.
Proof.
  induction appdirs as [|appdir rest IH]; [reflexivity|].
  rewrite fmap_cons, not_elem_of_cons. intros [Hne Hrest].
  cbn [new_entries]. rewrite (IH Hrest).
  destruct (decide (basename appdir = name)); [congruence|].
  apply (left_id_L ∅ (∪)).
Qed.

Lemma exp_loop_json (appdirs : list string) :
  forall (rj : gmap string (gmap string V)) (w : exp_world V),
    returns appdirs ->
    timed appdirs ->
    exists rj' lg',
      exp_loop evaluate repr ctx verbose true include_time only appdirs rj w
      = (ExpWorld (match appdirs with
                   | [] => results_file w
                   | _ => Some rj'
                   end) (stdout w) lg', Ok tt)
      /\ (appdirs = [] -> rj' = rj)
      /\ forall name,
          rj' !! name
          = if decide (name ∈ basename <$> appdirs)
            then Some (fresh name appdirs ∪ default ∅ (rj !! name))
            else rj !! name.
Proof.
  induction appdirs as [|appdir rest IH]; intros rj w Hr Ht.
  - exists rj, (exp_log w). destruct w. cbn. split; [reflexivity|].
    split; [reflexivity|]. intros name.
    rewrite decide_False by apply not_elem_of_nil. reflexivity.
  - cbn [exp_loop]. rewrite (Hr appdir) by apply list_elem_of_here.
    cbn [exp_loop].
    rewrite written_ok
      by (intros Hi; apply Ht; [exact Hi|apply list_elem_of_here]).
    set (rj2 := <[basename appdir := _]> _).
    assert (Hrj2 : forall name,
               rj2 !! name
               = if decide (basename appdir = name)
                 then Some (written include_time (res_of appdir)
                            ∪ default ∅ (rj !! basename appdir))
                 else rj !! name)
      by (intros name; apply round_lookup).
    clearbody rj2.
    destruct (IH rj2 (ExpWorld (Some rj2) (stdout w)
                               (log_at INFO (basename appdir) (exp_log w))))
      as (rj' & lg' & Hloop & Hnil & Hlook).
    { intros d Hd. apply Hr, list_elem_of_further, Hd. }
    { intros Hi d Hd. apply Ht; [exact Hi|]. apply list_elem_of_further, Hd. }
    exists rj', lg'. split; [|split; [discriminate|]].
    + rewrite Hloop. cbn [results_file stdout].
      destruct rest; [rewrite Hnil by reflexivity|]; reflexivity.
    + intros name. rewrite Hlook, Hrj2, fmap_cons. cbn [new_entries].
      destruct (decide (basename appdir = name)) as [Heq|Hne].
      * rewrite (decide_True (P := name ∈ _ :: _))
          by (rewrite <- Heq; apply list_elem_of_here).
        rewrite Heq.
        destruct (decide (name ∈ basename <$> rest)) as [Hin|Hnin].
        -- cbn [default id]. rewrite (assoc_L (∪)). reflexivity.
        -- rewrite (new_entries_not_evaluated name rest Hnin).
           rewrite (left_id_L ∅ (∪)). reflexivity.
      * rewrite (right_id_L ∅ (∪)).
        destruct (decide (name ∈ basename <$> rest)) as [Hin|Hnin].
        -- rewrite decide_True by (apply list_elem_of_further, Hin).
           reflexivity.
        -- rewrite decide_False; [reflexivity|].
           rewrite not_elem_of_cons. split; [congruence|exact Hnin].
Qed.

(** C3, amended: a run of [exp] with JSON output, every evaluation of
    which returns a result and every result of which holds an entry
    "time" unless [--time] is given, leaves a report that
    maps each evaluated benchmark name to the union of its previously
    recorded entries and the newly computed ones, the new ones without
    their entry "time" unless [--time] is given and winning on a key
    collision, and that leaves the entry of every benchmark not
    evaluated in the run unchanged. *)
Theorem exp_json_report_merge (appdirs : list string) (w : exp_world V) :
  returns appdirs ->
  timed appdirs ->
  exists w',
    exp evaluate repr ctx appdirs verbose true include_time only w
    = (w', Ok tt)
    /\ (forall name,
          name ∈ basename <$> appdirs ->
          persisted w' !! name
          = Some (fresh name appdirs ∪ default ∅ (persisted w !! name)))
    /\ (forall name,
          name ∉ basename <$> appdirs ->
          persisted w' !! name = persisted w !! name).
Proof.
  intros Hr Ht. unfold exp.
  destruct (exp_loop_json appdirs (default ∅ (results_file w)) w Hr Ht)
    as (rj' & lg' & Hloop & Hnil & Hlook).
  eexists; split; [exact Hloop|].
  assert (Hp : persisted
                 (ExpWorld (match appdirs with
                            | [] => results_file w
                            | _ => Some rj'
                            end) (stdout w) lg') = rj').
  { unfold persisted; cbn [results_file].
    destruct appdirs; [rewrite Hnil by reflexivity|]; reflexivity. }
  rewrite Hp. unfold persisted. split; intros name Hn; rewrite Hlook.
  - rewrite decide_True by exact Hn. reflexivity.
  - rewrite decide_False by exact Hn. reflexivity.
Qed.

End ExpFacts.

Lemma exp_json_report_merge_witness :
  let res : gmap string Z := {["time" := 7%Z; "main" := 1%Z]} in
  let results :=
    fun (_ : Evaluation unit) (_ _ : bool) (_ : list string) => res in
  let evaluate :=
    fun (_ : Evaluation unit) (_ _ : bool) (_ : list string) => Ok res in
  let ctx := MkGlobalConfig (get_client false false []) 1%Z 1%Z false in
  let w :=
    ExpWorld (Some {["ccv" := {["main" := 0%Z; "old" := 2%Z]};
                     "sobel" := {["main" := 5%Z]}]})
             [] (Logger WARNING []) in
  exists w',
    exp evaluate (fun _ => "") ctx ["apps/ccv"] false true false [] w
    = (w', Ok tt)
    /\ (forall name,
          name ∈ basename <$> ["apps/ccv"] ->
          persisted w' !! name
          = Some (new_entries results ctx false false [] name ["apps/ccv"]
                  ∪ default ∅ (persisted w !! name)))
    /\ (forall name,
          name ∉ basename <$> ["apps/ccv"] ->
          persisted w' !! name = persisted w !! name).
Proof.
  cbn zeta. apply exp_json_report_merge.
  - intros appdir _. reflexivity.
  - intros _ appdir _. rewrite lookup_insert_eq. eexists; reflexivity.
Defined.

(** C3 as stated fails on a run without [--time]: the newly computed
    entry "time" is not in the report. *)
Lemma exp_json_time_entry_dropped :
  let res : gmap string Z := {["time" := 7%Z; "main" := 1%Z]} in
  let evaluate :=
    fun (_ : Evaluation unit) (_ _ : bool) (_ : list string) => Ok res in
  let ctx := MkGlobalConfig (get_client false false []) 1%Z 1%Z false in
  let w := ExpWorld (V := Z) None [] (Logger WARNING []) in
  let w' :=
    fst (exp evaluate (fun _ => "") ctx ["apps/ccv"] false true false [] w) in
  persisted w' !! "ccv" = Some {["main" := 1%Z]}
  /\ persisted w' !! "ccv" <> Some (res ∪ default ∅ (persisted w !! "ccv")).
Proof.
  cbn zeta.
  assert (H : persisted
                (fst (exp (fun (_ : Evaluation unit) (_ _ : bool)
                               (_ : list string) =>
                             Ok ({["time" := 7%Z; "main" := 1%Z]}
                                 : gmap string Z))
                          (fun _ => "")
                          (MkGlobalConfig (get_client false false []) 1%Z 1%Z
                                          false)
                          ["apps/ccv"] false true false []
                          (ExpWorld None [] (Logger WARNING []))))
              !! "ccv" = Some {["main" := 1%Z]})
    by (vm_compute; reflexivity).
  split; [exact H|]. rewrite H. intros Heq.
  apply (f_equal (fun m => m ≫= (.!! "time"))) in Heq.
  vm_compute in Heq. discriminate Heq.
Qed.

End CommandFacts.

(** ** More on the ccv scorer *)

Module ScorerFacts.

Lemma zip_take {A B} (xs : list A) :
  forall ys : list B, Ccv.zip xs (take (length xs) ys) = Ccv.zip xs ys.
Proof.
  induction xs as [|x xs IH]; intros [|y ys]; cbn; try reflexivity.
  rewrite IH. reflexivity.
Qed.

Lemma zip_nil_r {A B} (xs : list A) : Ccv.zip xs ([] : list B) = [].
Proof. destruct xs; reflexivity. Qed.

(** X1: the scorer reads no more of the relaxed output than the
    original output has elements. *)
Theorem score_ignores_surplus (orig relaxed : list float) :
  Ccv.score orig (take (length orig) relaxed) = Ccv.score orig relaxed.
Proof.
  unfold Ccv.score. rewrite zip_take. reflexivity.
Qed.

(** X2: against an empty relaxed output every non-empty original output
    scores 0.0, the elements without a partner adding nothing to the
    total. *)
Theorem score_empty_relaxed (orig : list float) :
  orig <> [] ->
  Ccv.len orig <= Ccv.PY_SSIZE_T_MAX ->
  Ccv.score orig [] = Ok 0%float.
Proof.
  intros Hne Hlen. unfold Ccv.score. rewrite zip_nil_r. cbn [Ccv.score_loop].
  apply float_div_zero_positive, float_of_int_positive.
  split; [apply len_positive; exact Hne|exact Hlen].
Qed.

Lemma score_empty_relaxed_witness :
  Ccv.score [1.0; 2.5]%float [] = Ok 0%float.
Proof.
  apply score_empty_relaxed; [discriminate | vm_compute; discriminate].
Defined.

(** X3: the scorer raises a division by zero exactly when the original
    output is empty; on a non-empty original output it returns a float,
    the total of the terms divided by the length. *)
Theorem score_raises_iff_empty (orig relaxed : list float) :
  Ccv.len orig <= Ccv.PY_SSIZE_T_MAX ->
  (Ccv.score orig relaxed = Raise ZeroDivisionError <-> orig = [])
  /\ (orig <> [] ->
      Ccv.score orig relaxed
      = Ok (Ccv.score_loop 0 (Ccv.zip orig relaxed)
            / Ccv.float_of_int (Ccv.len orig))%float).
Proof.
  intros Hlen. split; [split|].
  - intros Hr. destruct orig as [|x orig]; [reflexivity|].
    rewrite score_nonempty_returns in Hr by (discriminate || exact Hlen).
    discriminate Hr.
  - intros ->. unfold Ccv.score. destruct relaxed; reflexivity.
  - intros Hne. apply score_nonempty_returns; assumption.
Qed.

Lemma score_raises_iff_empty_witness :
  (Ccv.score [] [1.0]%float = Raise ZeroDivisionError
   <-> ([] : list float) = [])
  /\ Ccv.score [1.0; 2.0]%float [1.5]%float
     = Ok (Ccv.score_loop 0 (Ccv.zip [1.0; 2.0] [1.5])
           / Ccv.float_of_int (Ccv.len [1.0; 2.0]%float))%float.
Proof.
  split.
  - apply (score_raises_iff_empty [] [1.0]%float). vm_compute. discriminate.
  - apply (score_raises_iff_empty [1.0; 2.0]%float [1.5]%float).
    + vm_compute. discriminate.
    + discriminate.
Defined.

(** *** Symmetry *)

Lemma abs_binary_round_aux (s s' : bool) (m e : Z) (l : location) :
  SFabs (binary_round_aux prec emax s m e l)
  = SFabs (binary_round_aux prec emax s' m e l).
Proof.
  unfold binary_round_aux.
  destruct (shr_fexp prec emax m e l) as [mrs1 e1].
  destruct (shr_fexp prec emax _ e1 loc_Exact) as [mrs2 e2].
  destruct (shr_m mrs2); try reflexivity.
  destruct (e2 <=? emax - prec); reflexivity.
Qed.

Lemma abs_binary_normalize_opp (m e : Z) :
  SFabs (binary_normalize prec emax (- m) e false)
  = SFabs (binary_normalize prec emax m e false).
Proof.
  destruct m as [|p|p]; [reflexivity| |].
  - change (- Z.pos p) with (Z.neg p). unfold binary_normalize, binary_round.
    destruct (shl_align p e _) as [mz ez]. apply abs_binary_round_aux.
  - change (- Z.neg p) with (Z.pos p). unfold binary_normalize, binary_round.
    destruct (shl_align p e _) as [mz ez]. apply abs_binary_round_aux.
Qed.

Lemma abs_sub_comm (a b : float) : abs (a - b) = abs (b - a).
Proof.
  apply Prim2SF_inj.
  rewrite !FloatAxioms.abs_spec, !FloatAxioms.sub_spec.
  unfold SF64sub, SFsub.
  destruct (Prim2SF a) as [sa|sa| |sa ma ea], (Prim2SF b) as [sb|sb| |sb mb eb];
    try (destruct sa; destruct sb; reflexivity);
    try (destruct sa; reflexivity); try (destruct sb; reflexivity);
    try reflexivity.
  rewrite (Z.min_comm eb ea).
  rewrite <- abs_binary_normalize_opp. f_equal. f_equal. lia.
Qed.

Lemma score_loop_comm (xs : list float) :
  forall (ys : list float) (total : float),
    Ccv.score_loop total (Ccv.zip xs ys) = Ccv.score_loop total (Ccv.zip ys xs).
Proof.
  induction xs as [|x xs IH]; intros [|y ys] total; cbn; try reflexivity.
  rewrite (abs_sub_comm x y). apply IH.
Qed.

(** X4: on two outputs of the same length the scorer is symmetric. *)
Theorem score_symmetric (xs ys : list float) :
  length xs = length ys -> Ccv.score xs ys = Ccv.score ys xs.
Proof.
  intros Hlen. unfold Ccv.score, Ccv.len.
  rewrite (score_loop_comm xs ys), Hlen. reflexivity.
Qed.

Lemma score_symmetric_witness :
  Ccv.score [1.0; 2.0]%float [1.5; 0.0]%float
  = Ccv.score [1.5; 0.0]%float [1.0; 2.0]%float.
Proof.
  apply score_symmetric. reflexivity.
Defined.

(** *** Clamping *)

Lemma SFeqb_refl (x : spec_float) : x <> S754_nan -> SFeqb x x = true.
Proof.
  intros Hx. unfold SFeqb.
  destruct x as [s|s| |s m e]; try reflexivity; try congruence.
  - destruct s; reflexivity.
  - cbn. rewrite Z.compare_refl, Pos.compare_cont_refl.
    destruct s; reflexivity.
Qed.

Lemma is_nan_spec (x : float) :
  is_nan x = match Prim2SF x with S754_nan => true | _ => false end.
Proof.
  unfold is_nan. rewrite FloatAxioms.eqb_spec.
  destruct (Prim2SF x) as [s|s| |s m e] eqn:Hx; try reflexivity;
    rewrite SFeqb_refl by discriminate; reflexivity.
Qed.

Lemma clamp_cases (x : spec_float) :
  let one := S754_finite false 4503599627370496 (-52) in
  SFltb one (SFabs x) = false ->
  x <> S754_nan ->
  SFleb (S754_zero false) (SFabs x) = true /\ SFleb (SFabs x) one = true.
Proof.
  cbn zeta. intros Hlt Hx.
  destruct x as [s|s| |s m e]; try congruence.
  - split; reflexivity.
  - discriminate Hlt.
  - split; [reflexivity|]. revert Hlt.
    unfold SFltb, SFleb, SFabs, SFcompare.
    rewrite (Z.compare_antisym (-52) e).
    assert (Hp : Pos.compare_cont Eq m 4503599627370496
                 = CompOpp (Pos.compare_cont Eq 4503599627370496 m))
      by (rewrite Pos.compare_cont_antisym; reflexivity).
    rewrite Hp.
    destruct (-52 ?= e);
      [destruct (Pos.compare_cont Eq 4503599627370496 m)| |];
      cbn [CompOpp]; intros Hlt; try discriminate Hlt; reflexivity.
Qed.

(** X5: the amount one pair of elements adds to the total is NaN exactly
    when their difference is NaN, and otherwise lies between 0.0 and
    1.0. *)
Theorem term_clamped (a b : float) :
  let t := Ccv.py_min (abs (a - b)) 1.0%float in
  is_nan t = is_nan (a - b)%float
  /\ (is_nan t = true
      \/ ((0 <=? t)%float = true /\ (t <=? 1)%float = true)).
Proof.
  cbn zeta. generalize (a - b)%float as d. intros d.
  unfold Ccv.py_min.
  assert (H1 : Prim2SF 1 = S754_finite false 4503599627370496 (-52))
    by reflexivity.
  assert (H0 : Prim2SF 0 = S754_zero false) by reflexivity.
  rewrite FloatAxioms.ltb_spec, FloatAxioms.abs_spec, H1.
  destruct (SFltb _ (SFabs (Prim2SF d))) eqn:Hlt.
  - split; [|right; split; reflexivity].
    rewrite (is_nan_spec d).
    destruct (Prim2SF d); try reflexivity. discriminate Hlt.
  - assert (Hn : is_nan (abs d) = is_nan d)
      by (rewrite !is_nan_spec, FloatAxioms.abs_spec;
          destruct (Prim2SF d); reflexivity).
    split; [exact Hn|]. rewrite Hn, (is_nan_spec d).
    destruct (Prim2SF d) as [s|s| |s m e] eqn:Hd;
      [right|right|left; reflexivity|right];
      rewrite !FloatAxioms.leb_spec, FloatAxioms.abs_spec, Hd, H0, H1;
      apply clamp_cases; (exact Hlt || discriminate).
Qed.

(** *** [load] *)

Section LoadFacts.

Variable float_of_string : string -> result float.

Local Abbreviation parses :=
  (Forall2 (fun line x => float_of_string line = Ok x)).

Lemma load_loop_parsed (lines : list string) :
  forall (xs out : list float),
    parses lines xs ->
    Ccv.load_loop float_of_string lines out = Ok (out ++ xs).
Proof.
  induction lines as [|line lines IH]; intros xs out Hp;
    inversion Hp as [|? x ? xs' Hx Hxs]; subst; cbn [Ccv.load_loop].
  - rewrite app_nil_r. reflexivity.
  - rewrite Hx. cbn [bind]. rewrite (IH xs' _ Hxs), <- app_assoc. reflexivity.
Qed.

Lemma load_loop_returned (lines : list string) :
  forall (out ys : list float),
    Ccv.load_loop float_of_string lines out = Ok ys ->
    exists xs, ys = out ++ xs /\ parses lines xs.
Proof.
  induction lines as [|line lines IH]; intros out ys Hl;
    cbn [Ccv.load_loop] in Hl.
  - exists []. split; [|constructor].
    rewrite app_nil_r. congruence.
  - destruct (float_of_string line) as [x|e] eqn:Hx; [|discriminate Hl].
    cbn [bind] in Hl. destruct (IH _ _ Hl) as (xs & -> & Hxs).
    exists (x :: xs). split; [|constructor; assumption].
    rewrite <- app_assoc. reflexivity.
Qed.

(** X6: [load] returns a list exactly when the file exists and every
    line of it parses as a float, and the list then holds the number of
    each line, one per line and in the order of the file. *)
Theorem load_one_number_per_line (my_output : option (list string))
    (xs : list float) :
  Ccv.load float_of_string my_output = Ok xs
  <-> exists lines, my_output = Some lines /\ parses lines xs.
Proof.
  split.
  - destruct my_output as [lines|]; [|discriminate].
    intros Hl. destruct (load_loop_returned _ _ _ Hl) as (ys & -> & Hp).
    exists lines. split; [reflexivity|exact Hp].
  - intros (lines & -> & Hp). apply (load_loop_parsed lines xs [] Hp).
Qed.

Lemma load_loop_app (pre : list string) :
  forall (xs out : list float) (rest : list string),
    parses pre xs ->
    Ccv.load_loop float_of_string (pre ++ rest) out
    = Ccv.load_loop float_of_string rest (out ++ xs).
Proof.
  induction pre as [|line pre IH]; intros xs out rest Hp;
    inversion Hp as [|? x ? xs' Hx Hxs]; subst.
  - rewrite app_nil_r. reflexivity.
  - cbn [app Ccv.load_loop]. rewrite Hx. cbn [bind].
    rewrite (IH xs' _ rest Hxs), <- app_assoc. reflexivity.
Qed.

(** X7: the first line that does not parse aborts [load] with the error
    of the parser, whatever the lines after it hold; the numbers read so
    far are lost. *)
Theorem load_first_bad_line (pre post : list string) (bad : string)
    (xs : list float) (e : exn) :
  parses pre xs ->
  float_of_string bad = Raise e ->
  Ccv.load float_of_string (Some (pre ++ bad :: post)) = Raise e.
Proof.
  intros Hp Hbad. unfold Ccv.load.
  rewrite (load_loop_app pre xs [] (bad :: post) Hp).
  cbn [Ccv.load_loop]. rewrite Hbad. reflexivity.
Qed.

End LoadFacts.

Lemma load_first_bad_line_witness :
  let float_of_string :=
    fun s : string =>
      if String.eqb s "1.5" then Ok 1.5%float
      else Raise (OtherError "ValueError") in
  Ccv.load float_of_string (Some ["1.5"; "x"; "1.5"]%string)
  = Raise (OtherError "ValueError").
Proof.
  cbn zeta.
  apply (load_first_bad_line _ ["1.5"%string] ["1.5"%string] "x"
           [1.5%float]).
  - repeat constructor.
  - reflexivity.
Defined.

End ScorerFacts.

(** ** More on the command layer *)

Module DriverFacts.

Import CwMemo Commands CommandFacts.

Local Open Scope string_scope.

(** *** [cli] and [main] *)

(** X8: a test replication factor that is left unspecified falls back to
    the search replication factor, and one that is specified and is not
    0 reaches the evaluator as it is. *)
Theorem cli_test_reps_carried {R} (FIREHOSE : Z)
    (db : list (fingerprint * R)) (lg : logger) (verbose : Z)
    (cluster force keep : bool) (r : Z) (tr : option Z) (appdir : string) :
  tr <> Some 0%Z ->
  ev_test_reps
    (get_eval appdir (snd (cli FIREHOSE db lg verbose cluster force r tr keep)))
  = default r tr.
Proof.
  intros Htr. rewrite cli_test_reps. destruct tr as [v|]; [|reflexivity].
  cbn [default id]. apply py_or_nonzero. intros Hv. apply Htr. congruence.
Qed.

Lemma cli_test_reps_carried_witness :
  ev_test_reps
    (get_eval "apps/ccv"
       (snd (cli 5%Z ([] : list (fingerprint * unit)) (Logger WARNING [])
                 0%Z false false 3%Z (Some 5%Z) false)))
  = 5%Z.
Proof.
  apply (cli_test_reps_carried 5%Z [] (Logger WARNING []) 0%Z false false
           false 3%Z (Some 5%Z) "apps/ccv").
  discriminate.
Defined.

(** X9: with a search replication factor other than 0, the evaluator is
    never given a test replication factor of 0, whatever the option
    says. *)
Theorem cli_test_reps_nonzero {R} (FIREHOSE : Z)
    (db : list (fingerprint * R)) (lg : logger) (verbose : Z)
    (cluster force keep : bool) (r : Z) (tr : option Z) (appdir : string) :
  r <> 0%Z ->
  ev_test_reps
    (get_eval appdir (snd (cli FIREHOSE db lg verbose cluster force r tr keep)))
  <> 0%Z.
Proof.
  intros Hr. rewrite cli_test_reps. unfold py_or.
  destruct tr as [v|]; [|exact Hr].
  destruct (Z.eqb_spec v 0); assumption.
Qed.

Lemma cli_test_reps_nonzero_witness :
  ev_test_reps
    (get_eval "apps/ccv"
       (snd (cli 5%Z ([] : list (fingerprint * unit)) (Logger WARNING [])
                 0%Z false false 3%Z (Some 0%Z) false)))
  <> 0%Z.
Proof.
  apply (cli_test_reps_nonzero 5%Z [] (Logger WARNING []) 0%Z false false
           false 3%Z (Some 0%Z) "apps/ccv").
  discriminate.
Defined.

Lemma cli_level {R} (FIREHOSE : Z) (db : list (fingerprint * R))
    (lg : logger) (verbose : Z) (cluster force keep : bool) (r : Z)
    (tr : option Z) :
  let lg' := fst (cli FIREHOSE db lg verbose cluster force r tr keep) in
  records lg' = records lg
  /\ level lg' = (if (3 <=? verbose)%Z then FIREHOSE
                  else if (2 <=? verbose)%Z then DEBUG
                  else if (1 <=? verbose)%Z then INFO
                  else level lg).
Proof.
  unfold cli; cbn [fst].
  destruct (3 <=? verbose)%Z; [split; reflexivity|].
  destruct (2 <=? verbose)%Z; [split; reflexivity|].
  destruct (1 <=? verbose)%Z; split; reflexivity.
Qed.

(** X10: from a root logger at the default threshold WARNING, and with
    [core.FIREHOSE] no higher than DEBUG, a [UserError] raised by the
    command body always gets its message logged, and gets its stack
    trace logged, before the message, exactly when the verbosity is 2 or
    more. *)
Theorem user_error_trace_needs_vv {R} (FIREHOSE : Z)
    (db : list (fingerprint * R)) (lg0 : logger) (verbose : Z)
    (cluster force keep : bool) (r : Z) (tr : option Z)
    (format_exc : exn -> string) (user_error_log : string -> string)
    (msg : string) :
  (FIREHOSE <= DEBUG)%Z ->
  level lg0 = WARNING ->
  let lg := fst (cli FIREHOSE db lg0 verbose cluster force r tr keep) in
  main format_exc user_error_log (Raise (UserError msg)) lg
  = (Logger (level lg)
       (records lg0
        ++ (if (2 <=? verbose)%Z
            then [(DEBUG, format_exc (UserError msg))] else [])
        ++ [(ERROR, user_error_log msg)])%list,
     SysExit 1).
Proof.
  intros Hf H0. cbn zeta.
  destruct (cli_level FIREHOSE db lg0 verbose cluster force keep r tr)
    as [Hrec Hlev].
  set (lg := fst (cli FIREHOSE db lg0 verbose cluster force r tr keep)) in *.
  cbn [main]. f_equal.
  set (lg1 := log_at DEBUG (format_exc (UserError msg)) lg).
  set (lg2 := log_at ERROR (user_error_log msg) lg1).
  assert (H2 : level lg2 = level lg)
    by (unfold lg2, lg1; rewrite !log_at_level; reflexivity).
  assert (Hr2 : records lg2
                = (records lg0
                   ++ (if (2 <=? verbose)%Z
                       then [(DEBUG, format_exc (UserError msg))] else [])
                   ++ [(ERROR, user_error_log msg)])%list).
  { unfold lg2, lg1.
    rewrite log_at_records, log_at_level, log_at_records, Hrec, Hlev.
    rewrite <- app_assoc. f_equal. unfold DEBUG, ERROR, INFO, WARNING in *.
    destruct (Z.leb_spec 3 verbose), (Z.leb_spec 2 verbose),
      (Z.leb_spec 1 verbose); try lia;
      repeat match goal with
             | |- context [(?a <=? ?b)%Z] => destruct (Z.leb_spec a b); try lia
             end; reflexivity. }
  destruct lg2 as [l2 r2]; cbn in *. subst. reflexivity.
Qed.

Lemma user_error_trace_needs_vv_witness :
  main (fun _ => "Traceback") (fun m => "error: " ++ m)
       (Raise (UserError "no such directory"))
       (fst (cli 5%Z ([] : list (fingerprint * unit)) (Logger WARNING [])
                 2%Z false false 1%Z None false))
  = (Logger DEBUG [(DEBUG, "Traceback"); (ERROR, "error: no such directory")],
     SysExit 1).
Proof.
  apply (user_error_trace_needs_vv 5%Z [] (Logger WARNING []) 2%Z false false
           false 1%Z None (fun _ => "Traceback") (fun m => "error: " ++ m)
           "no such directory").
  - unfold DEBUG; lia.
  - reflexivity.
Defined.

(** *** [os.path.basename] *)

Lemma slash_free_snoc (acc : string) (c : ascii) :
  slash_free acc = true -> Ascii.eqb c "/"%char = false ->
  slash_free (acc ++ String c EmptyString) = true.
Proof.
  intros Hacc Hc.
  induction acc as [|a acc IH]; simpl in *.
  - rewrite Hc. reflexivity.
  - apply andb_true_iff in Hacc as [Ha Hacc].
    rewrite Ha, (IH Hacc). reflexivity.
Qed.

Lemma basename_from_slash_free (p : string) :
  forall acc, slash_free acc = true -> slash_free (basename_from acc p) = true.
Proof.
  induction p as [|c p IH]; intros acc Hacc; cbn [basename_from];
    [exact Hacc|].
  destruct (Ascii.eqb c "/"%char) eqn:Hc.
  - apply IH. reflexivity.
  - apply IH, slash_free_snoc; assumption.
Qed.

Lemma append_snoc (acc : string) (c : ascii) (n : string) :
  (acc ++ String c EmptyString) ++ n = acc ++ String c n.
Proof.
  induction acc as [|a acc IH]; [reflexivity|].
  change (String a ((acc ++ String c EmptyString) ++ n)
          = String a (acc ++ String c n)).
  rewrite IH. reflexivity.
Qed.

Lemma append_empty_r (acc : string) : acc ++ EmptyString = acc.
Proof.
  induction acc as [|a acc IH]; [reflexivity|].
  change (String a (acc ++ EmptyString) = String a acc).
  rewrite IH. reflexivity.
Qed.

Lemma basename_from_component (n : string) :
  forall acc, slash_free n = true -> basename_from acc n = acc ++ n.
Proof.
  induction n as [|c n IH]; intros acc Hn;
    cbn [basename_from slash_free] in *.
  - symmetry; apply append_empty_r.
  - apply andb_true_iff in Hn as [Hc Hn].
    apply negb_true_iff in Hc. rewrite Hc, (IH _ Hn). apply append_snoc.
Qed.

Lemma basename_from_slash (d n : string) :
  forall acc,
    basename_from acc (d ++ String "/"%char n) = basename_from EmptyString n.
Proof.
  induction d as [|c d IH]; intros acc; simpl.
  - reflexivity.
  - destruct (Ascii.eqb c "/"%char); apply IH.
Qed.

(** X11: the benchmark name [exp] computes from a directory never holds
    a slash. *)
Theorem basename_slash_free (p : string) : slash_free (basename p) = true.
Proof.
  apply basename_from_slash_free. reflexivity.
Qed.

(** X12: the benchmark name of a directory given as [d/n], for a last
    component [n] that holds no slash, is [n]; with a trailing slash the
    component, and so the name, is empty. *)
Theorem basename_last_component (d n : string) :
  slash_free n = true ->
  basename (d ++ "/" ++ n) = n.
Proof.
  intros Hn. unfold basename.
  change ("/" ++ n) with (String "/"%char n).
  rewrite basename_from_slash. apply (basename_from_component n EmptyString Hn).
Qed.

Lemma basename_last_component_witness :
  basename ("apps" ++ "/" ++ "ccv") = "ccv"
  /\ basename ("apps/ccv" ++ "/" ++ "") = "".
Proof.
  split; apply basename_last_component; reflexivity.
Defined.

(** *** [exp] *)

Section ExpMore.

Context {R V : Type}.
Variable evaluate :
  Evaluation R -> bool -> bool -> list string -> result (gmap string V).
Variable results :
  Evaluation R -> bool -> bool -> list string -> gmap string V.
Variable repr : gmap string V -> string.
Variable ctx : GlobalConfig R.
Variables verbose include_time : bool.
Variable only : list string.

Local Abbreviation shown appdirs :=
  (map (fun appdir => repr (results (get_eval appdir ctx) verbose false only))
       appdirs).

Lemma exp_loop_plain_file (appdirs : list string) :
  forall (rj : gmap string (gmap string V)) (w : exp_world V),
    results_file
      (fst (exp_loop evaluate repr ctx verbose false include_time only
                     appdirs rj w))
    = results_file w.
Proof.
  induction appdirs as [|appdir rest IH]; intros rj w; [reflexivity|].
  cbn [exp_loop].
  destruct (evaluate (get_eval appdir ctx) verbose false only) as [res|e];
    [|reflexivity].
  rewrite IH. reflexivity.
Qed.

Lemma exp_loop_plain_app (pre : list string) :
  forall (rj : gmap string (gmap string V)) (w : exp_world V),
    returns evaluate results ctx verbose false only pre ->
    exists lg1,
      forall rest,
        exp_loop evaluate repr ctx verbose false include_time only
                 (pre ++ rest) rj w
        = exp_loop evaluate repr ctx verbose false include_time only rest rj
                   (ExpWorld (results_file w) (stdout w ++ shown pre)%list
                             lg1).
Proof.
  induction pre as [|appdir pre IH]; intros rj w Hr.
  - exists (exp_log w). intros rest. destruct w; cbn [app map].
    rewrite app_nil_r. reflexivity.
  - destruct (IH rj (ExpWorld (results_file w)
                       (stdout w
                        ++ [repr (results (get_eval appdir ctx) verbose false
                                          only)])%list
                       (log_at INFO (basename appdir) (exp_log w))))
      as (lg1 & Happ).
    { intros d Hd. apply Hr, list_elem_of_further, Hd. }
    exists lg1. intros rest. cbn [exp_loop app map].
    rewrite (Hr appdir) by apply list_elem_of_here. cbn [exp_loop].
    rewrite Happ. cbn [results_file stdout]. rewrite <- app_assoc.
    reflexivity.
Qed.

(** X13: without JSON output [exp] never touches the report file,
    whether the run ends normally or not; it prints the result of each
    directory in the order given, up to the first directory whose
    evaluation raises, and that exception ends the run; when every
    evaluation returns, all results are printed and the run ends
    normally. *)
Theorem exp_plain_prints (appdirs pre post : list string) (bad : string)
    (e : exn) (w : exp_world V) :
  results_file
    (fst (exp evaluate repr ctx appdirs verbose false include_time only w))
  = results_file w
  /\ (returns evaluate results ctx verbose false only appdirs ->
      exists w',
        exp evaluate repr ctx appdirs verbose false include_time only w
        = (w', Ok tt)
        /\ stdout w' = (stdout w ++ shown appdirs)%list)
  /\ (returns evaluate results ctx verbose false only pre ->
      evaluate (get_eval bad ctx) verbose false only = Raise e ->
      exists w',
        exp evaluate repr ctx (pre ++ bad :: post) verbose false include_time
            only w
        = (w', Raise e)
        /\ stdout w' = (stdout w ++ shown pre)%list).
Proof.
  unfold exp. split; [apply exp_loop_plain_file|]. split.
  - intros Hr. destruct (exp_loop_plain_app appdirs ∅ w Hr) as (lg1 & Happ).
    specialize (Happ []). rewrite app_nil_r in Happ. rewrite Happ.
    eexists; split; reflexivity.
  - intros Hr Hbad. destruct (exp_loop_plain_app pre ∅ w Hr) as (lg1 & Happ).
    rewrite (Happ (bad :: post)). cbn [exp_loop]. rewrite Hbad.
    eexists; split; reflexivity.
Qed.

Lemma exp_loop_json_stdout (appdirs : list string) :
  forall (rj : gmap string (gmap string V)) (w : exp_world V),
    stdout (fst (exp_loop evaluate repr ctx verbose true include_time only
                          appdirs rj w))
    = stdout w.
Proof.
  induction appdirs as [|appdir rest IH]; intros rj w; [reflexivity|].
  cbn [exp_loop].
  destruct (evaluate (get_eval appdir ctx) verbose true only) as [res|e];
    [|reflexivity].
  destruct (if include_time then _ else _) as [res'|e]; [|reflexivity].
  rewrite IH. reflexivity.
Qed.

(** X14: with JSON output [exp] prints nothing, whether the run ends
    normally or is cut short by an exception, of an evaluation or of the
    removal of the entry "time". *)
Theorem exp_json_prints_nothing (appdirs : list string) (w : exp_world V) :
  stdout (fst (exp evaluate repr ctx appdirs verbose true include_time only w))
  = stdout w.
Proof.
  unfold exp. apply exp_loop_json_stdout.
Qed.

Local Abbreviation res_of appdir :=
  (results (get_eval appdir ctx) verbose true only).

Lemma exp_loop_json_app (pre : list string) :
  forall (rj : gmap string (gmap string V)) (w : exp_world V),
    returns evaluate results ctx verbose true only pre ->
    timed results ctx verbose include_time only pre ->
    exists rj1 w1,
      exp_loop evaluate repr ctx verbose true include_time only pre rj w
      = (w1, Ok tt)
      /\ forall rest,
          exp_loop evaluate repr ctx verbose true include_time only
                   (pre ++ rest) rj w
          = exp_loop evaluate repr ctx verbose true include_time only
                     rest rj1 w1.
Proof.
  induction pre as [|appdir pre IH]; intros rj w Hr Ht.
  - exists rj, w. split; [reflexivity|]. intros rest; reflexivity.
  - cbn [exp_loop app].
    rewrite (Hr appdir) by apply list_elem_of_here. cbn [exp_loop].
    rewrite (written_ok results ctx verbose include_time only appdir)
      by (intros Hi; apply Ht; [exact Hi|apply list_elem_of_here]).
    apply IH.
    + intros d Hd. apply Hr, list_elem_of_further, Hd.
    + intros Hi d Hd. apply Ht; [exact Hi|].
      apply list_elem_of_further, Hd.
Qed.

(** X15: without [--time], the first directory whose result holds no
    entry "time" cuts the run short with a [KeyError]; the report then
    persisted is the one a run over the directories before it leaves,
    and the directories after it are not recorded. *)
Theorem exp_json_missing_time (pre post : list string) (bad : string)
    (w : exp_world V) :
  include_time = false ->
  returns evaluate results ctx verbose true only (pre ++ [bad]) ->
  timed results ctx verbose include_time only pre ->
  res_of bad !! "time" = None ->
  exists w1 w',
    exp evaluate repr ctx pre verbose true include_time only w = (w1, Ok tt)
    /\ exp evaluate repr ctx (pre ++ bad :: post) verbose true include_time
           only w
       = (w', Raise (KeyError "time"))
    /\ results_file w' = results_file w1
    /\ stdout w' = stdout w1.
Proof.
  intros Hi Hr Ht Hbad. unfold exp.
  destruct (exp_loop_json_app pre (default ∅ (results_file w)) w)
    as (rj1 & w1 & Hpre & Happ); [|exact Ht|].
  { intros d Hd. apply Hr, elem_of_app. left; exact Hd. }
  exists w1. rewrite Hpre, (Happ (bad :: post)). cbn [exp_loop].
  rewrite (Hr bad)
    by (apply elem_of_app; right; apply list_elem_of_here).
  cbn [exp_loop]. rewrite Hi. unfold py_del. rewrite Hbad.
  eexists; split; [reflexivity|]. split; [reflexivity|]. split; reflexivity.
Qed.

End ExpMore.

Lemma exp_plain_prints_witness :
  let results :=
    fun (_ : Evaluation unit) (_ _ : bool) (_ : list string) =>
      ({["main" := 1%Z]} : gmap string Z) in
  let evaluate :=
    fun (ev : Evaluation unit) (_ _ : bool) (_ : list string) =>
      if String.eqb (ev_appdir ev) "apps/none"
      then Raise (UserError "no such directory")
      else Ok ({["main" := 1%Z]} : gmap string Z) in
  let ctx := MkGlobalConfig (get_client false false []) 1%Z 1%Z false in
  let w := ExpWorld (V := Z) None [] (Logger WARNING []) in
  (exists w',
      exp evaluate (fun _ => "{main: 1}") ctx ["apps/ccv"; "apps/sobel"]
          false false false [] w
      = (w', Ok tt)
      /\ stdout w' = ["{main: 1}"; "{main: 1}"])
  /\ (exists w',
         exp evaluate (fun _ => "{main: 1}") ctx
             (["apps/ccv"] ++ "apps/none" :: ["apps/sobel"])
             false false false [] w
         = (w', Raise (UserError "no such directory"))
         /\ stdout w' = ["{main: 1}"]).
Proof.
  cbn zeta. split.
  - apply (exp_plain_prints _
             (fun (_ : Evaluation unit) (_ _ : bool) (_ : list string) =>
                ({["main" := 1%Z]} : gmap string Z))
             (fun _ => "{main: 1}") _ false false []
             ["apps/ccv"; "apps/sobel"] [] [] "" ZeroDivisionError).
    intros d Hd. apply elem_of_cons in Hd as [->|Hd]; [reflexivity|].
    apply list_elem_of_singleton in Hd as ->. reflexivity.
  - apply (exp_plain_prints _
             (fun (_ : Evaluation unit) (_ _ : bool) (_ : list string) =>
                ({["main" := 1%Z]} : gmap string Z))
             (fun _ => "{main: 1}") _ false false []
             [] ["apps/ccv"] ["apps/sobel"] "apps/none"
             (UserError "no such directory")).
    + intros d Hd. apply list_elem_of_singleton in Hd as ->. reflexivity.
    + reflexivity.
Defined.

Lemma exp_json_missing_time_witness :
  let results :=
    fun (ev : Evaluation unit) (_ _ : bool) (_ : list string) =>
      if String.eqb (ev_appdir ev) "apps/ccv"
      then ({["time" := 7%Z; "main" := 1%Z]} : gmap string Z)
      else {["main" := 2%Z]} in
  let evaluate :=
    fun (ev : Evaluation unit) (v j : bool) (o : list string) =>
      Ok (results ev v j o) in
  let ctx := MkGlobalConfig (get_client false false []) 1%Z 1%Z false in
  let w := ExpWorld (V := Z) None [] (Logger WARNING []) in
  exists w1 w',
    exp evaluate (fun _ => "") ctx ["apps/ccv"] false true false [] w
    = (w1, Ok tt)
    /\ exp evaluate (fun _ => "") ctx (["apps/ccv"] ++ "apps/sobel" :: [])
           false true false [] w
       = (w', Raise (KeyError "time"))
    /\ results_file w' = results_file w1
    /\ stdout w' = stdout w1.
Proof.
  cbn zeta.
  apply (exp_json_missing_time _
           (fun (ev : Evaluation unit) (_ _ : bool) (_ : list string) =>
              if String.eqb (ev_appdir ev) "apps/ccv"
              then ({["time" := 7%Z; "main" := 1%Z]} : gmap string Z)
              else {["main" := 2%Z]})).
  - reflexivity.
  - intros d Hd. reflexivity.
  - intros _ appdir Hd. apply list_elem_of_singleton in Hd as ->.
    cbn. rewrite lookup_insert_eq. eexists; reflexivity.
  - cbn. apply lookup_singleton_ne. discriminate.
Defined.

(** *** [log_and_output] *)

Lemma remove_if_exists (fn : string) (cwd : gmap string string) :
  match cwd !! fn with
  | Some _ => delete fn cwd
  | None => cwd
  end = delete fn cwd.
Proof.
  destruct (cwd !! fn) eqn:Hfn; [reflexivity|].
  symmetry. apply delete_id. exact Hfn.
Qed.

(** X16: when the build writes no log file, [log_and_output] returns
    the empty log, whatever log file was in the directory before: a log
    left by an earlier build is never returned. *)
Theorem log_and_output_no_stale_log
    (core_build : gmap string string -> gmap string string * string)
    (getcwd fn : string) (keep : bool) (cwd : gmap string string)
    (lg : logger) :
  (forall d, d !! fn = None -> fst (core_build d) !! fn = None) ->
  fst (fst (fst (log_and_output core_build getcwd fn keep cwd lg))) = "".
Proof.
  intros Hb. unfold log_and_output. rewrite remove_if_exists.
  specialize (Hb (delete fn cwd) (lookup_delete_eq cwd fn)).
  destruct (core_build (delete fn cwd)) as [after output].
  cbn [fst] in *. rewrite Hb. reflexivity.
Qed.

Lemma log_and_output_no_stale_log_witness :
  fst (fst (fst (log_and_output (fun d => (d, "cc: ok")) "/tmp/sandbox"
                   "accept_log.txt" true
                   {["accept_log.txt" := "stale"; "Makefile" := "all:"]}
                   (Logger WARNING []))))
  = "".
Proof.
  apply log_and_output_no_stale_log. intros d Hd. exact Hd.
Defined.

(** *** [approx] and [precise] *)

Lemma py_index_negative {A} (l : list A) (i : Z) :
  (i < 0)%Z -> (0 <= i + Z.of_nat (length l))%Z ->
  py_index l i = py_index l (i + Z.of_nat (length l)).
Proof.
  intros Hi Hn. unfold py_index.
  destruct (Z.ltb_spec i 0); [|lia].
  destruct (Z.ltb_spec (i + Z.of_nat (length l)) 0); [lia|]. reflexivity.
Qed.

(** X17: an argument of [approx] below -1 counts from the end of the
    results: it selects what the argument increased by the number of
    results selects. *)
Theorem approx_negative_index {Config Output : Type}
    (dump_config : Config -> string) (format_output : Output -> string)
    (format_2f : float -> string)
    (results : list (EvaluationResult Config Output)) (out : list string)
    (num : Z) :
  (- Z.of_nat (length results) <= num < -1)%Z ->
  approx Config Output dump_config format_output format_2f num results out
  = approx Config Output dump_config format_output format_2f
           (num + Z.of_nat (length results)) results out.
Proof.
  intros Hn. unfold approx.
  destruct (Z.eqb_spec num (-1)); [lia|].
  destruct (Z.eqb_spec (num + Z.of_nat (length results)) (-1)); [lia|].
  rewrite (py_index_negative results num) by lia. reflexivity.
Qed.

Lemma approx_negative_index_witness :
  let r0 := MkResult tt ["0.5"] [Some 1.5%float] "good" in
  let r1 := MkResult tt ["0.7"] [None] "error" in
  approx unit string (fun _ => "cfg") (fun o => o) (fun _ => "1.50")
         (-2) [r0; r1] []
  = approx unit string (fun _ => "cfg") (fun o => o) (fun _ => "1.50")
           (-2 + Z.of_nat (length [r0; r1])) [r0; r1] [].
Proof.
  cbn zeta. apply approx_negative_index. cbn. lia.
Defined.

Lemma print_times_durations (format_2f : float -> string)
    (times : list float) :
  forall out : list string,
    print_times format_2f times out
    = print_durations format_2f (map Some times) out.
Proof.
  induction times as [|t times IH]; intros out; [reflexivity|].
  cbn [print_times print_durations map]. apply IH.
Qed.

(** X18: [precise] prints the baseline output, the line "time:" and
    then, for each time, the line [approx] prints for a replicate with
    that duration; it has no line for a replicate without a timing. *)
Theorem precise_lines {Pout : Type} (str_pout : Pout -> string)
    (format_2f : float -> string) (pout : Pout) (times : list float)
    (out : list string) :
  precise Pout str_pout format_2f pout times out
  = (out
     ++ [("output: " ++ str_pout pout)%string; "time:"]
     ++ map (fun t => render_duration format_2f (Some t)) times)%list.
Proof.
  unfold precise. rewrite print_times_durations, print_durations_app.
  unfold print. rewrite <- !app_assoc, map_map. reflexivity.
Qed.

End DriverFacts.
